(** * Complex reflection groups: the generic algorithms of the category

    A shallow embedding of [sage/categories/complex_reflection_groups.py]:
    the methods that the category [ComplexReflectionGroups] contributes to a
    concrete group ([ParentMethods]) and to its elements ([ElementMethods]),
    together with the [Irreducible] axiom category.

    Python exceptions are values of a result type; the recursion that runs
    through [simple_reflection], [simple_reflections] and the default
    [apply_simple_reflection_left/right] is cut by a call-depth budget, the
    way the interpreter's recursion limit cuts it. *)

From Stdlib Require Import List String ZArith Lia DecimalString.
Import ListNotations.
Local Open Scope string_scope.

(** ** Labels of an index set

    The doctests index reflections by integers and by strings
    ([index_set=[1,3,'asdf']]). *)

Inductive label : Type :=
| LInt (n : Z)
| LStr (s : string).

(** Python's [==] on labels: an integer never equals a string. *)
Definition label_eqb (a b : label) : bool :=
  match a, b with
  | LInt m, LInt n => Z.eqb m n
  | LStr s, LStr t => String.eqb s t
  | _, _ => false
  end.

(** [i in index_set]. *)
Definition label_in (i : label) (l : list label) : bool :=
  existsb (label_eqb i) l.

(** [str(i)], which is what ["%s" % i] inserts in a message. *)
Definition str_label (i : label) : string :=
  match i with
  | LInt n => NilZero.string_of_int (Z.to_int n)
  | LStr s => s
  end.

(** ** Exceptions and results *)

Inductive exn : Type :=
| ValueError (msg : string)
| KeyError (key : label)
| NotImplementedError (method : string)
| UnboundLocalError (name : string)
| RecursionError.

Inductive result (A : Type) : Type :=
| Ok (a : A)
| Raise (e : exn).

Arguments Ok {A} a.
Arguments Raise {A} e.

Definition bind {A B : Type} (c : result A) (k : A -> result B) : result B :=
  match c with
  | Ok a => k a
  | Raise e => Raise e
  end.

Notation "x <- c ;; k" := (bind c (fun x => k))
  (at level 61, c at next level, right associativity).

(** A loop that evaluates [f] on every item in order and stops at the first
    exception: the shape of a comprehension or of a generator being consumed. *)
Fixpoint mapM {A B : Type} (f : A -> result B) (l : list A) : result (list B) :=
  match l with
  | [] => Ok []
  | a :: l' => b <- f a ;; bs <- mapM f l' ;; Ok (b :: bs)
  end.

(** Modelled from the spec: [abstract_method] is missing from the sources.
    Calling an optional primitive that the concrete class did not supply fails
    with a not implemented condition that names the missing method. *)
Definition optional {A : Type} (method : string) (m : option A) : result A :=
  match m with
  | Some a => Ok a
  | None => Raise (NotImplementedError method)
  end.

Section Category.

Context {elt : Type}.

(** ** Families *)

(** Modelled from the spec: [sage.sets.family.Family] is missing from the
    sources.  A generator family is an immutable mapping from the labels of an
    index set to elements, one element per label, kept in the index set's own
    order. *)
Definition family : Type := list (label * elt).

(** Modelled from the spec: the family over [indices] is built by asking the
    single-index lookup [f] for every label in turn; the lookup has to answer
    on every label. *)
Definition Family (indices : list label) (f : label -> result elt)
  : result family :=
  mapM (fun i => g <- f i ;; Ok (i, g)) indices.

(** Modelled from the spec: looking up a label outside the index set fails
    with an invalid index condition, which for the dictionary behind a finite
    family is a [KeyError] carrying the key. *)
Fixpoint getitem (s : family) (i : label) : result elt :=
  match s with
  | [] => Raise (KeyError i)
  | (k, g) :: s' => if label_eqb k i then Ok g else getitem s' i
  end.

(** ** What a concrete group supplies

    [index_set], the unit and the product are required; the other abstract
    methods are optional ([None]: not implemented).  The three [_impl] fields
    are the methods that a concrete class may reimplement ([None]: the
    category's own method is the one found on the object). *)

#[local] Unset Elimination Schemes.
Inductive Parent : Type := mkParent {
  one : elt;
  mul : elt -> elt -> elt;
  index_set : list label;
  hyperplane_index_set : option (list label);
  distinguished_reflection : option (label -> result elt);
  reflection_index_set : option (list label);
  reflection : option (label -> result elt);
  irreducible_components_impl : option (list Parent);
  reflection_length : option (elt -> Z);
  simple_reflection_impl : option (label -> result elt);
  apply_simple_reflection_left_impl : option (elt -> label -> result elt);
  apply_simple_reflection_right_impl : option (elt -> label -> result elt);
  in_Irreducible : bool
}.
#[local] Set Elimination Schemes.

(** ** ParentMethods and ElementMethods on the recursive path

    [depth] bounds the nesting of calls among these five methods; a call that
    would exceed it raises [RecursionError].  A method that the concrete class
    reimplements is the concrete one, whatever the budget.  The cache of
    [simple_reflections] is not represented: the methods are functions of
    their arguments, so a second call returns what the first one did. *)

Definition side_default : string := "right".

Fixpoint simple_reflection (depth : nat) (W : Parent) (i : label)
  {struct depth} : result elt :=
  match simple_reflection_impl W with
  | Some f => f i
  | None =>
      match depth with
      | O => Raise RecursionError
      | S d => apply_simple_reflection d W (one W) i side_default
      end
  end

with simple_reflections (depth : nat) (W : Parent)
  {struct depth} : result family :=
  match depth with
  | O => Raise RecursionError
  | S d => Family (index_set W) (simple_reflection d W)
  end

with apply_simple_reflection_left (depth : nat) (W : Parent) (self : elt)
  (i : label) {struct depth} : result elt :=
  match apply_simple_reflection_left_impl W with
  | Some f => f self i
  | None =>
      match depth with
      | O => Raise RecursionError
      | S d =>
          s <- simple_reflections d W ;;
          g <- getitem s i ;;
          Ok (mul W g self)
      end
  end

with apply_simple_reflection_right (depth : nat) (W : Parent) (self : elt)
  (i : label) {struct depth} : result elt :=
  match apply_simple_reflection_right_impl W with
  | Some f => f self i
  | None =>
      match depth with
      | O => Raise RecursionError
      | S d =>
          s <- simple_reflections d W ;;
          g <- getitem s i ;;
          Ok (mul W self g)
      end
  end

with apply_simple_reflection (depth : nat) (W : Parent) (self : elt)
  (i : label) (side : string) {struct depth} : result elt :=
  match depth with
  | O => Raise RecursionError
  | S d =>
      if String.eqb side "right"
      then apply_simple_reflection_right d W self i
      else apply_simple_reflection_left d W self i
  end.

(** ** ElementMethods: words of simple reflections *)

Fixpoint apply_simple_reflections (depth : nat) (W : Parent) (self : elt)
  (word : list label) (side : string) : result elt :=
  match word with
  | [] => Ok self
  | i :: word' =>
      self' <- apply_simple_reflection depth W self i side ;;
      apply_simple_reflections depth W self' word' side
  end.

(** ** ElementMethods: distinguished reflections *)

Definition not_an_index (i : label) (what : string) : exn :=
  ValueError ("the given index " ++ str_label i ++ " is not an index of " ++ what).

Definition apply_distinguished_reflection (W : Parent) (self : elt)
  (i : label) (side : string) : result elt :=
  H <- optional "hyperplane_index_set" (hyperplane_index_set W) ;;
  if negb (label_in i H)
  then Raise (not_an_index i "a hyperplane")
  else if String.eqb side "right"
  then
    t <- optional "distinguished_reflection" (distinguished_reflection W) ;;
    g <- t i ;;
    Ok (mul W self g)
  else
    t <- optional "reflection" (reflection W) ;;
    g <- t i ;;
    Ok (mul W g self).

Fixpoint apply_distinguished_reflections (W : Parent) (self : elt)
  (word : list label) (side : string) : result elt :=
  match word with
  | [] => Ok self
  | i :: word' =>
      self' <- apply_distinguished_reflection W self i side ;;
      apply_distinguished_reflections W self' word' side
  end.

(** ** ElementMethods: all reflections *)

Definition apply_reflection (W : Parent) (self : elt) (i : label)
  (side : string) : result elt :=
  R <- optional "reflection_index_set" (reflection_index_set W) ;;
  if negb (label_in i R)
  then Raise (not_an_index i "a reflection")
  else if String.eqb side "right"
  then
    t <- optional "reflection" (reflection W) ;;
    g <- t i ;;
    Ok (mul W self g)
  else
    t <- optional "reflection" (reflection W) ;;
    g <- t i ;;
    Ok (mul W g self).

Fixpoint apply_reflections (W : Parent) (self : elt) (word : list label)
  (side : string) : result elt :=
  match word with
  | [] => Ok self
  | i :: word' =>
      self' <- apply_reflection W self i side ;;
      apply_reflections W self' word' side
  end.

(** ** ElementMethods: reflection length *)

Definition is_reflection (W : Parent) (self : elt) : result bool :=
  len <- optional "reflection_length" (reflection_length W) ;;
  Ok (Z.eqb (len self) 1).

(** ** ParentMethods *)

(** Modelled from the spec: [prod] comes from the category of monoids, which
    is missing from the sources.  It is the product of the items in the order
    in which they are produced, starting from the unit. *)
Definition prod (W : Parent) (args : list elt) : elt :=
  fold_left (mul W) args (one W).

Definition an_element (W : Parent) : result elt :=
  args <- mapM (fun i => t <- optional "reflection" (reflection W) ;; t i)
               (index_set W) ;;
  Ok (prod W args).

Definition from_word (depth : nat) (W : Parent) (word : list label)
  (word_type : string) : result elt :=
  if String.eqb word_type "simple"
  then apply_simple_reflections depth W (one W) word "right"
  else if String.eqb word_type "distinguished"
  then apply_distinguished_reflections W (one W) word "right"
  else if String.eqb word_type "all"
  then apply_reflections W (one W) word "right"
  else Raise (UnboundLocalError "f").

Definition word_type_default : string := "simple".

(** The [Irreducible] axiom category answers [[self]] for a group that
    declares the axiom; a concrete class that has its own method is asked
    first, and without either the method is the unimplemented abstract one. *)
Definition irreducible_components (W : Parent) : result (list Parent) :=
  match irreducible_components_impl W with
  | Some comps => Ok comps
  | None =>
      if in_Irreducible W then Ok [W]
      else Raise (NotImplementedError "irreducible_components")
  end.

(** Modelled from the spec: [nr_irreducible_components] is called by
    [is_irreducible] and is missing from the sources.  It is the number of
    irreducible components. *)
Definition nr_irreducible_components (W : Parent) : result nat :=
  comps <- irreducible_components W ;;
  Ok (List.length comps).

Definition is_irreducible (W : Parent) : result bool :=
  n <- nr_irreducible_components W ;;
  Ok (Nat.eqb n 1).

Definition is_reducible (W : Parent) : result bool :=
  b <- is_irreducible W ;;
  Ok (negb b).

End Category.

Arguments family elt : clear implicits.
Arguments Parent elt : clear implicits.

(** ** A concrete group: the symmetric group on three points

    The group of the doctests, [ColoredPermutations(1,3)]: permutations in
    one-line notation, [p * q] sending [k] to [q (p k)], simple reflections
    [1 -> [2,1,3]] and [2 -> [1,3,2]]. *)

Module Sym3.

Inductive perm : Type := P123 | P132 | P213 | P231 | P312 | P321.

Definition images (p : perm) : nat * nat * nat :=
  match p with
  | P123 => (1, 2, 3) | P132 => (1, 3, 2) | P213 => (2, 1, 3)
  | P231 => (2, 3, 1) | P312 => (3, 1, 2) | P321 => (3, 2, 1)
  end%nat.

Definition act (p : perm) (k : nat) : nat :=
  let '(a, b, c) := images p in
  match k with 1 => a | 2 => b | _ => c end%nat.

Definition of_images (t : nat * nat * nat) : perm :=
  match t with
  | (1, 3, 2) => P132 | (2, 1, 3) => P213 | (2, 3, 1) => P231
  | (3, 1, 2) => P312 | (3, 2, 1) => P321 | _ => P123
  end%nat.

Definition compose (p q : perm) : perm :=
  of_images (act q (act p 1), act q (act p 2), act q (act p 3)).

Definition length_of (p : perm) : Z :=
  match p with
  | P123 => 0
  | P132 | P213 | P321 => 1
  | P231 | P312 => 2
  end.

(** The group with its hyperplanes labelled by [hyp] and its reflections by
    [refl]; the concrete class supplies [simple_reflection] and leaves the
    element methods to the category. *)
Definition group (hyp refl : list label) : Parent perm :=
  {| one := P123;
     mul := compose;
     index_set := [LInt 1; LInt 2];
     hyperplane_index_set := Some hyp;
     distinguished_reflection :=
       Some (getitem (combine hyp [P213; P132; P321]));
     reflection_index_set := Some refl;
     reflection := Some (getitem (combine refl [P213; P132; P321]));
     irreducible_components_impl := None;
     reflection_length := Some length_of;
     simple_reflection_impl :=
       Some (getitem [(LInt 1, P213); (LInt 2, P132)]);
     apply_simple_reflection_left_impl := None;
     apply_simple_reflection_right_impl := None;
     in_Irreducible := true |}.

(** [ColoredPermutations(1,3)] *)
Definition W : Parent perm :=
  group [LInt 0; LInt 1; LInt 2] [LInt 0; LInt 1; LInt 2].

(** [ColoredPermutations(1,3, hyperplane_index_set=['A','B','C'])] *)
Definition W_ABC : Parent perm :=
  group [LStr "A"; LStr "B"; LStr "C"] [LInt 0; LInt 1; LInt 2].

End Sym3.

(** ** ParentMethods: the other families and the typical elements *)

Section MoreParentMethods.

Context {elt : Type}.

Definition distinguished_reflections (W : Parent elt) : result (family elt) :=
  H <- optional "hyperplane_index_set" (hyperplane_index_set W) ;;
  t <- optional "distinguished_reflection" (distinguished_reflection W) ;;
  Family H t.

Definition reflections (W : Parent elt) : result (family elt) :=
  R <- optional "reflection_index_set" (reflection_index_set W) ;;
  t <- optional "reflection" (reflection W) ;;
  Family R t.

(** Modelled from the spec: the length of a family is the number of its
    labels; the labels of an index set are distinct. *)
Definition len (s : family elt) : nat := List.length s.

Definition nr_simple_reflections (depth : nat) (W : Parent elt) : result nat :=
  s <- simple_reflections depth W ;;
  Ok (len s).

(** Modelled from the spec: iterating a family yields its elements, in the
    order of the index set. *)
Definition values (s : family elt) : list elt := map snd s.

Definition some_elements (depth : nat) (W : Parent elt) : result (list elt) :=
  args <- mapM (fun i => t <- optional "reflection" (reflection W) ;; t i)
               (index_set W) ;;
  let prod_ref := prod W args in
  s <- simple_reflections depth W ;;
  a <- an_element W ;;
  Ok (values s ++ [one W; a; prod_ref])%list.

(** The loop shared by the three [apply_..._reflections] methods, over an
    arbitrary step: they are compared with it below. *)
Fixpoint fold_word (step : elt -> label -> result elt) (x : elt)
  (word : list label) : result elt :=
  match word with
  | [] => Ok x
  | i :: word' => y <- step x i ;; fold_word step y word'
  end.

End MoreParentMethods.

(** ** Two more concrete classes on the symmetric group

    [Sym3_bare] reimplements nothing; [Sym3_right] reimplements the right
    primitive of its elements and leaves [simple_reflection] and the left
    primitive to the category. *)

Definition Sym3_bare : Parent Sym3.perm :=
  {| one := Sym3.P123;
     mul := Sym3.compose;
     index_set := [LInt 1; LInt 2];
     hyperplane_index_set := None;
     distinguished_reflection := None;
     reflection_index_set := None;
     reflection := None;
     irreducible_components_impl := None;
     reflection_length := None;
     simple_reflection_impl := None;
     apply_simple_reflection_left_impl := None;
     apply_simple_reflection_right_impl := None;
     in_Irreducible := false |}.

Definition Sym3_right : Parent Sym3.perm :=
  {| one := Sym3.P123;
     mul := Sym3.compose;
     index_set := [LInt 1; LInt 2];
     hyperplane_index_set := None;
     distinguished_reflection := None;
     reflection_index_set := None;
     reflection := None;
     irreducible_components_impl := None;
     reflection_length := None;
     simple_reflection_impl := None;
     apply_simple_reflection_left_impl := None;
     apply_simple_reflection_right_impl :=
       Some (fun x i =>
               g <- getitem [(LInt 1, Sym3.P213); (LInt 2, Sym3.P132)] i ;;
               Ok (Sym3.compose x g));
     in_Irreducible := false |}.

(** [ColoredPermutations(1,3, reflection_index_set=['A','B','C'])], the
    group of the doctest of [apply_reflection]. *)
Definition Sym3_refl_ABC : Parent Sym3.perm :=
  Sym3.group [LInt 0; LInt 1; LInt 2] [LStr "A"; LStr "B"; LStr "C"].

(** The reflections of [Sym3.W] by label. *)
Definition Sym3_reflection (i : label) : Sym3.perm :=
  match i with
  | LInt 0 => Sym3.P213
  | LInt 1 => Sym3.P132
  | _ => Sym3.P321
  end.

(** The simple reflections of [Sym3.W] by label. *)
Definition Sym3_simple (i : label) : Sym3.perm :=
  match i with
  | LInt 1 => Sym3.P213
  | _ => Sym3.P132
  end.

(** ** Statements taken from the specification

    [an_element_spec] follows the words of the specification: the product of
    the general reflections over the reflection index set, in that index
    set's order.  It is compared below with [an_element]. *)

Definition an_element_spec {elt : Type} (W : Parent elt) : result elt :=
  R <- optional "reflection_index_set" (reflection_index_set W) ;;
  args <- mapM (fun i => t <- optional "reflection" (reflection W) ;; t i) R ;;
  Ok (prod W args).

(** The index set that goes with a word type. *)
Definition selected_index_set {elt : Type} (W : Parent elt)
  (word_type : string) : option (list label) :=
  if String.eqb word_type "simple" then Some (index_set W)
  else if String.eqb word_type "distinguished" then hyperplane_index_set W
  else if String.eqb word_type "all" then reflection_index_set W
  else None.

Definition word_types : list string := ["simple"; "distinguished"; "all"].

(** ** Stability under a larger budget

    What it means for the five methods that a call returning within the
    budget [d] returns the same value within [S d]. *)

Definition stable_at {elt : Type} (d : nat) (W : Parent elt) : Prop :=
  (forall i g, simple_reflection d W i = Ok g ->
               simple_reflection (S d) W i = Ok g) /\
  (forall s, simple_reflections d W = Ok s ->
             simple_reflections (S d) W = Ok s) /\
  (forall x i g, apply_simple_reflection_left d W x i = Ok g ->
                 apply_simple_reflection_left (S d) W x i = Ok g) /\
  (forall x i g, apply_simple_reflection_right d W x i = Ok g ->
                 apply_simple_reflection_right (S d) W x i = Ok g) /\
  (forall x i side g, apply_simple_reflection d W x i side = Ok g ->
                      apply_simple_reflection (S d) W x i side = Ok g).

(** The doctests of [apply_simple_reflections] and [from_word]. *)
Example doctest_apply_simple_reflections :
  map (fun w => apply_simple_reflections 3 Sym3.W (one Sym3.W) (map LInt w) "right")
      [[1]; [2]; [2; 1]; [1; 2]; [1; 2; 1]; [1; 2; 1; 2]; [1; 2; 1; 2; 1];
       [1; 2; 1; 2; 1; 2]]%Z
  = map Ok [Sym3.P213; Sym3.P132; Sym3.P231; Sym3.P312; Sym3.P321; Sym3.P231;
            Sym3.P132; Sym3.P123].
Proof. reflexivity. Qed.

Example doctest_from_word :
  from_word 3 Sym3.W (map LInt [1; 2; 1; 2; 1; 2]%Z) word_type_default
  = Ok Sym3.P123.
Proof. reflexivity. Qed.

(** ** Labels, results and families *)

Lemma label_eqb_eq (a b : label) : label_eqb a b = true <-> a = b.
Proof.
  destruct a as [m|s], b as [n|t]; simpl; split; intro H;
    try discriminate; try (inversion H; subst).
  - apply Z.eqb_eq in H. now subst.
  - apply Z.eqb_refl.
  - apply String.eqb_eq in H. now subst.
  - apply String.eqb_refl.
Qed.

Lemma label_eqb_refl (a : label) : label_eqb a a = true.
Proof. now apply label_eqb_eq. Qed.

Lemma label_in_In (i : label) (l : list label) :
  label_in i l = true <-> In i l.
Proof.
  unfold label_in. rewrite existsb_exists. split.
  - intros [j [Hj Heq]]. apply label_eqb_eq in Heq. now subst.
  - intro Hi. exists i. split; [assumption | apply label_eqb_refl].
Qed.

Lemma label_in_false (i : label) (l : list label) :
  label_in i l = false <-> ~ In i l.
Proof.
  rewrite <- label_in_In. destruct (label_in i l); split; intro H;
    try reflexivity; try discriminate; try (intro; discriminate).
  now elim H.
Qed.

Lemma bind_Ok_inv {A B : Type} (c : result A) (k : A -> result B) (b : B) :
  (x <- c ;; k x) = Ok b -> exists a, c = Ok a /\ k a = Ok b.
Proof. destruct c as [a|e]; simpl; [eauto | discriminate]. Qed.

Section FamilyFacts.

Context {elt : Type}.

Lemma Family_keys (f : label -> result elt) (idx : list label) (s : family elt) :
  Family idx f = Ok s -> map fst s = idx.
Proof.
  unfold Family. revert s. induction idx as [|i idx IH]; intros s H; simpl in H.
  - now inversion H.
  - destruct (f i) as [g|e]; simpl in H; [|discriminate].
    destruct (mapM _ idx) as [s'|e]; simpl in H; [|discriminate].
    inversion H; subst. simpl. now rewrite (IH s').
Qed.

Lemma Family_getitem (f : label -> result elt) (idx : list label)
  (s : family elt) (i : label) :
  Family idx f = Ok s -> In i idx -> getitem s i = f i.
Proof.
  unfold Family. revert s.
  induction idx as [|j idx IH]; intros s H Hi; [contradiction|].
  simpl in H.
  destruct (f j) as [g|e] eqn:Hj; simpl in H; [|discriminate].
  destruct (mapM _ idx) as [s'|e]; simpl in H; [|discriminate].
  inversion H; subst. simpl.
  destruct (label_eqb j i) eqn:Hji.
  - apply label_eqb_eq in Hji. now subst.
  - apply IH; [reflexivity|]. destruct Hi as [->|Hi]; [|assumption].
    rewrite label_eqb_refl in Hji. discriminate.
Qed.

Lemma Family_total (f : label -> result elt) (idx : list label) :
  (forall i, In i idx -> exists g, f i = Ok g) ->
  exists s, Family idx f = Ok s.
Proof.
  induction idx as [|j idx IH]; intro H; simpl.
  - now exists [].
  - destruct (H j) as [g Hg]; [now left|].
    destruct IH as [s Hs]; [intros i Hi; apply H; now right|].
    unfold Family in *. simpl. rewrite Hg. simpl. rewrite Hs. simpl. eauto.
Qed.

Lemma Family_mono (f f' : label -> result elt) (idx : list label)
  (s : family elt) :
  (forall i g, f i = Ok g -> f' i = Ok g) ->
  Family idx f = Ok s -> Family idx f' = Ok s.
Proof.
  intro Hf. revert s. induction idx as [|j idx IH]; intros s H; [assumption|].
  unfold Family in *. simpl in *.
  destruct (f j) as [g|e] eqn:Hj; simpl in H; [|discriminate].
  rewrite (Hf _ _ Hj). simpl.
  destruct (mapM _ idx) as [s'|e]; simpl in H; [|discriminate].
  now rewrite (IH s' eq_refl).
Qed.

Lemma getitem_outside (s : family elt) (i : label) :
  ~ In i (map fst s) -> getitem s i = Raise (KeyError i).
Proof.
  induction s as [|[k g] s IH]; intro H; simpl; [reflexivity|].
  destruct (label_eqb k i) eqn:Hk.
  - apply label_eqb_eq in Hk. elim H. now left.
  - apply IH. intro Hi. apply H. now right.
Qed.

Lemma getitem_inside (s : family elt) (i : label) :
  In i (map fst s) -> exists g, getitem s i = Ok g.
Proof.
  induction s as [|[k g] s IH]; intro H; simpl in *; [contradiction|].
  destruct (label_eqb k i) eqn:Hk; [eauto|].
  destruct H as [->|H]; [|now apply IH].
  rewrite label_eqb_refl in Hk. discriminate.
Qed.

End FamilyFacts.

(** ** The call-depth budget

    One unfolding of each method, and the fact that a call which returns
    within a budget returns the same element within any larger one. *)

Section Depth.

Context {elt : Type}.
Implicit Types (W : Parent elt) (x g : elt) (i : label) (s : family elt).

Lemma simple_reflections_S d W :
  simple_reflections (S d) W = Family (index_set W) (simple_reflection d W).
Proof. reflexivity. Qed.

Lemma apply_simple_reflection_S d W x i side :
  apply_simple_reflection (S d) W x i side =
  if String.eqb side "right"
  then apply_simple_reflection_right d W x i
  else apply_simple_reflection_left d W x i.
Proof. reflexivity. Qed.

Lemma apply_simple_reflection_right_default d W x i :
  apply_simple_reflection_right_impl W = None ->
  apply_simple_reflection_right (S d) W x i =
  (s <- simple_reflections d W ;; g <- getitem s i ;; Ok (mul W x g)).
Proof. intro H. simpl. now rewrite H. Qed.

Lemma apply_simple_reflection_left_default d W x i :
  apply_simple_reflection_left_impl W = None ->
  apply_simple_reflection_left (S d) W x i =
  (s <- simple_reflections d W ;; g <- getitem s i ;; Ok (mul W g x)).
Proof. intro H. simpl. now rewrite H. Qed.

Lemma stable_everywhere d W : stable_at d W.
Proof.
  induction d as [|d (IHsr & IHfam & IHl & IHr & IHa)]; unfold stable_at.
  - repeat split.
    + intros i g. simpl. now destruct (simple_reflection_impl W).
    + intros s. simpl. discriminate.
    + intros x i g. simpl. now destruct (apply_simple_reflection_left_impl W).
    + intros x i g. simpl. now destruct (apply_simple_reflection_right_impl W).
    + intros x i side g. simpl. discriminate.
  - repeat split.
    + intros i g.
      change (simple_reflection (S d) W i) with
        (match simple_reflection_impl W with
         | Some f => f i
         | None => apply_simple_reflection d W (one W) i side_default
         end).
      change (simple_reflection (S (S d)) W i) with
        (match simple_reflection_impl W with
         | Some f => f i
         | None => apply_simple_reflection (S d) W (one W) i side_default
         end).
      destruct (simple_reflection_impl W); [trivial | apply IHa].
    + intros s. rewrite !simple_reflections_S. apply Family_mono, IHsr.
    + intros x i g.
      change (apply_simple_reflection_left (S d) W x i) with
        (match apply_simple_reflection_left_impl W with
         | Some f => f x i
         | None => s <- simple_reflections d W ;; g <- getitem s i ;;
                   Ok (mul W g x)
         end).
      change (apply_simple_reflection_left (S (S d)) W x i) with
        (match apply_simple_reflection_left_impl W with
         | Some f => f x i
         | None => s <- simple_reflections (S d) W ;; g <- getitem s i ;;
                   Ok (mul W g x)
         end).
      destruct (apply_simple_reflection_left_impl W); [trivial|].
      intro H. apply bind_Ok_inv in H. destruct H as [s [Hs H]].
      now rewrite (IHfam _ Hs).
    + intros x i g.
      change (apply_simple_reflection_right (S d) W x i) with
        (match apply_simple_reflection_right_impl W with
         | Some f => f x i
         | None => s <- simple_reflections d W ;; g <- getitem s i ;;
                   Ok (mul W x g)
         end).
      change (apply_simple_reflection_right (S (S d)) W x i) with
        (match apply_simple_reflection_right_impl W with
         | Some f => f x i
         | None => s <- simple_reflections (S d) W ;; g <- getitem s i ;;
                   Ok (mul W x g)
         end).
      destruct (apply_simple_reflection_right_impl W); [trivial|].
      intro H. apply bind_Ok_inv in H. destruct H as [s [Hs H]].
      now rewrite (IHfam _ Hs).
    + intros x i side g. rewrite !apply_simple_reflection_S.
      destruct (String.eqb side "right"); [apply IHr | apply IHl].
Qed.

Lemma simple_reflection_mono d d' W i g :
  d <= d' -> simple_reflection d W i = Ok g -> simple_reflection d' W i = Ok g.
Proof.
  induction 1 as [|d' _ IH]; [trivial|].
  intro H. now apply (stable_everywhere d' W), IH.
Qed.

Lemma simple_reflections_mono d d' W s :
  d <= d' -> simple_reflections d W = Ok s -> simple_reflections d' W = Ok s.
Proof.
  induction 1 as [|d' _ IH]; [trivial|].
  intro H. now apply (stable_everywhere d' W), IH.
Qed.

End Depth.

Lemma simple_reflections_keys {elt : Type} d (W : Parent elt) (s : family elt) :
  simple_reflections d W = Ok s -> map fst s = index_set W.
Proof.
  destruct d as [|d]; [discriminate|].
  rewrite simple_reflections_S. apply Family_keys.
Qed.

(** ** Generator families *)

(** C6.  When the single-index lookup answers on every label of the index
    set, the cached family is built, and at every label of the index set the
    single-index lookup and the family hold the same element:
    [G.simple_reflection(i) == G.simple_reflections()[i]]. *)
Theorem simple_reflection_agrees_with_family {elt : Type} d (W : Parent elt) :
  (forall j, In j (index_set W) -> exists g, simple_reflection d W j = Ok g) ->
  exists s, simple_reflections (S d) W = Ok s /\
    forall i, In i (index_set W) ->
      exists g, simple_reflection (S d) W i = Ok g /\ getitem s i = Ok g.
Proof.
  intro Htotal.
  destruct (Family_total (simple_reflection d W) (index_set W) Htotal) as [s Hs].
  exists s. split; [exact Hs|].
  intros i Hi. destruct (Htotal i Hi) as [g Hg]. exists g. split.
  - apply (simple_reflection_mono d); [lia | exact Hg].
  - now rewrite (Family_getitem _ _ _ _ Hs Hi).
Qed.

Lemma simple_reflection_agrees_with_family_witness :
  exists s, simple_reflections 1 Sym3.W = Ok s /\
    forall i, In i (index_set Sym3.W) ->
      exists g, simple_reflection 1 Sym3.W i = Ok g /\ getitem s i = Ok g.
Proof.
  apply (simple_reflection_agrees_with_family 0 Sym3.W).
  intros j [<-|[<-|[]]]; eexists; reflexivity.
Defined.

(** ** Default element primitives *)

(** C8.  With the category's own element methods, for every element [x] and
    every label [i] of the index set, [x.apply_simple_reflection_right(i)] is
    [x * simple_reflections()[i]], [x.apply_simple_reflection_left(i)] is
    [simple_reflections()[i] * x], and [apply_simple_reflection(i, side)]
    is the right variant for [side = 'right'], which is the default, and the
    left variant for [side = 'left']. *)
Theorem default_element_primitives {elt : Type} d (W : Parent elt)
  (s : family elt) (x : elt) (i : label) :
  apply_simple_reflection_left_impl W = None ->
  apply_simple_reflection_right_impl W = None ->
  simple_reflections d W = Ok s ->
  In i (index_set W) ->
  exists g, getitem s i = Ok g /\
    apply_simple_reflection_right (S d) W x i = Ok (mul W x g) /\
    apply_simple_reflection_left (S d) W x i = Ok (mul W g x) /\
    apply_simple_reflection (S (S d)) W x i "right"
      = apply_simple_reflection_right (S d) W x i /\
    apply_simple_reflection (S (S d)) W x i side_default
      = apply_simple_reflection_right (S d) W x i /\
    apply_simple_reflection (S (S d)) W x i "left"
      = apply_simple_reflection_left (S d) W x i.
Proof.
  intros Hl Hr Hs Hi.
  destruct (getitem_inside s i) as [g Hg].
  { now rewrite (simple_reflections_keys d W s Hs). }
  exists g. repeat split; try exact Hg.
  - rewrite (apply_simple_reflection_right_default d W x i Hr), Hs. simpl.
    now rewrite Hg.
  - rewrite (apply_simple_reflection_left_default d W x i Hl), Hs. simpl.
    now rewrite Hg.
Qed.

Lemma default_element_primitives_witness :
  exists g, getitem [(LInt 1, Sym3.P213); (LInt 2, Sym3.P132)] (LInt 2) = Ok g /\
    apply_simple_reflection_right 2 Sym3.W Sym3.P213 (LInt 2)
      = Ok (mul Sym3.W Sym3.P213 g) /\
    apply_simple_reflection_left 2 Sym3.W Sym3.P213 (LInt 2)
      = Ok (mul Sym3.W g Sym3.P213) /\
    apply_simple_reflection 3 Sym3.W Sym3.P213 (LInt 2) "right"
      = apply_simple_reflection_right 2 Sym3.W Sym3.P213 (LInt 2) /\
    apply_simple_reflection 3 Sym3.W Sym3.P213 (LInt 2) side_default
      = apply_simple_reflection_right 2 Sym3.W Sym3.P213 (LInt 2) /\
    apply_simple_reflection 3 Sym3.W Sym3.P213 (LInt 2) "left"
      = apply_simple_reflection_left 2 Sym3.W Sym3.P213 (LInt 2).
Proof.
  apply (default_element_primitives 1 Sym3.W); try reflexivity.
  simpl. right. left. reflexivity.
Defined.

(** ** Words *)

Section Words.

Context {elt : Type}.
Implicit Types (W : Parent elt) (x y : elt) (i : label) (w : list label).

Lemma apply_simple_reflections_app d W x w1 w2 side :
  apply_simple_reflections d W x (w1 ++ w2) side =
  (y <- apply_simple_reflections d W x w1 side ;;
   apply_simple_reflections d W y w2 side).
Proof.
  revert x. induction w1 as [|i w1 IH]; intro x; simpl; [reflexivity|].
  destruct (apply_simple_reflection d W x i side); simpl; [apply IH | reflexivity].
Qed.

Lemma apply_distinguished_reflections_app W x w1 w2 side :
  apply_distinguished_reflections W x (w1 ++ w2) side =
  (y <- apply_distinguished_reflections W x w1 side ;;
   apply_distinguished_reflections W y w2 side).
Proof.
  revert x. induction w1 as [|i w1 IH]; intro x; simpl; [reflexivity|].
  destruct (apply_distinguished_reflection W x i side); simpl;
    [apply IH | reflexivity].
Qed.

Lemma apply_reflections_app W x w1 w2 side :
  apply_reflections W x (w1 ++ w2) side =
  (y <- apply_reflections W x w1 side ;; apply_reflections W y w2 side).
Proof.
  revert x. induction w1 as [|i w1 IH]; intro x; simpl; [reflexivity|].
  destruct (apply_reflection W x i side); simpl; [apply IH | reflexivity].
Qed.

(** With the default right primitive and a family that has been built, one
    step to the right is a product with the family's entry. *)
Lemma right_step d W s x i :
  apply_simple_reflection_right_impl W = None ->
  simple_reflections d W = Ok s ->
  apply_simple_reflection (S (S d)) W x i "right" =
  (g <- getitem s i ;; Ok (mul W x g)).
Proof.
  intros Hr Hs. rewrite apply_simple_reflection_S. simpl String.eqb. cbv iota.
  now rewrite (apply_simple_reflection_right_default d W x i Hr), Hs.
Qed.

(** Folding to the right commutes with a product on the left. *)
Lemma right_fold_translate d W s a x w :
  (forall p q r, mul W (mul W p q) r = mul W p (mul W q r)) ->
  apply_simple_reflection_right_impl W = None ->
  simple_reflections d W = Ok s ->
  apply_simple_reflections (S (S d)) W (mul W a x) w "right" =
  (y <- apply_simple_reflections (S (S d)) W x w "right" ;; Ok (mul W a y)).
Proof.
  intros Hassoc Hr Hs. revert x.
  induction w as [|i w IH]; intro x; [reflexivity|].
  cbn [apply_simple_reflections].
  rewrite !(right_step d W s _ i Hr Hs).
  destruct (getitem s i) as [g|e]; simpl; [|reflexivity].
  rewrite Hassoc. apply IH.
Qed.

Lemma right_fold_inside d W s x w :
  apply_simple_reflection_right_impl W = None ->
  simple_reflections d W = Ok s ->
  (forall i, In i w -> In i (index_set W)) ->
  exists y, apply_simple_reflections (S (S d)) W x w "right" = Ok y.
Proof.
  intros Hr Hs. revert x.
  induction w as [|i w IH]; intros x Hw; [now exists x|].
  cbn [apply_simple_reflections]. rewrite (right_step d W s _ i Hr Hs).
  destruct (getitem_inside s i) as [g Hg].
  { rewrite (simple_reflections_keys d W s Hs). apply Hw. now left. }
  rewrite Hg. simpl. apply IH. intros j Hj. apply Hw. now right.
Qed.

End Words.

(** C10.  Applying the empty word leaves every element unchanged, on either
    side and for each of the three kinds of reflections. *)
Theorem apply_empty_word {elt : Type} d (W : Parent elt) (x : elt)
  (side : string) :
  apply_simple_reflections d W x [] side = Ok x /\
  apply_distinguished_reflections W x [] side = Ok x /\
  apply_reflections W x [] side = Ok x.
Proof. repeat split. Qed.

(** C2.  For every word type, [from_word([], word_type)] is the unit of the
    group. *)
Theorem from_word_empty {elt : Type} d (W : Parent elt) (word_type : string) :
  In word_type word_types ->
  from_word d W [] word_type = Ok (one W).
Proof.
  intros [<-|[<-|[<-|[]]]]; reflexivity.
Qed.

Lemma from_word_empty_witness :
  from_word 0 Sym3.W [] "distinguished" = Ok (one Sym3.W).
Proof.
  apply (from_word_empty 0 Sym3.W "distinguished").
  simpl. right. left. reflexivity.
Defined.

(** X3.  A word type outside the three documented ones leaves [f] unbound:
    [from_word] raises [UnboundLocalError], whatever the word. *)
Lemma from_word_unknown_word_type {elt : Type} d (W : Parent elt)
  (word : list label) (word_type : string) :
  ~ In word_type word_types ->
  from_word d W word word_type = Raise (UnboundLocalError "f").
Proof.
  intro H. unfold from_word.
  destruct (String.eqb_spec word_type "simple") as [->|_].
  { elim H. now left. }
  destruct (String.eqb_spec word_type "distinguished") as [->|_].
  { elim H. right. now left. }
  destruct (String.eqb_spec word_type "all") as [->|_]; [|reflexivity].
  elim H. right. right. now left.
Qed.

(** C3.  In a group whose elements use the default right primitive, for all
    words [w1] and [w2] over the simple index set,
    [from_word(w1 + w2) == from_word(w1) * from_word(w2)]. *)
Theorem from_word_concat {elt : Type} d (W : Parent elt) (s : family elt)
  (w1 w2 : list label) :
  (forall p q r, mul W (mul W p q) r = mul W p (mul W q r)) ->
  (forall p, mul W p (one W) = p) ->
  apply_simple_reflection_right_impl W = None ->
  simple_reflections d W = Ok s ->
  (forall i, In i (w1 ++ w2) -> In i (index_set W)) ->
  exists a b,
    from_word (S (S d)) W w1 "simple" = Ok a /\
    from_word (S (S d)) W w2 "simple" = Ok b /\
    from_word (S (S d)) W (w1 ++ w2) "simple" = Ok (mul W a b).
Proof.
  intros Hassoc Hone Hr Hs Hw. unfold from_word. simpl String.eqb. cbv iota.
  destruct (right_fold_inside d W s (one W) w1 Hr Hs) as [a Ha].
  { intros i Hi. apply Hw, in_or_app. now left. }
  destruct (right_fold_inside d W s (one W) w2 Hr Hs) as [b Hb].
  { intros i Hi. apply Hw, in_or_app. now right. }
  exists a, b. repeat split; try assumption.
  rewrite apply_simple_reflections_app, Ha. simpl.
  rewrite <- (Hone a) at 1.
  now rewrite (right_fold_translate d W s a (one W) w2 Hassoc Hr Hs), Hb.
Qed.

Lemma compose_assoc (p q r : Sym3.perm) :
  Sym3.compose (Sym3.compose p q) r = Sym3.compose p (Sym3.compose q r).
Proof. destruct p, q, r; reflexivity. Defined.

Lemma compose_one_r (p : Sym3.perm) : Sym3.compose p Sym3.P123 = p.
Proof. destruct p; reflexivity. Defined.

Lemma from_word_concat_witness :
  exists a b,
    from_word 3 Sym3.W [LInt 1; LInt 2] "simple" = Ok a /\
    from_word 3 Sym3.W [LInt 2; LInt 1; LInt 2] "simple" = Ok b /\
    from_word 3 Sym3.W ([LInt 1; LInt 2] ++ [LInt 2; LInt 1; LInt 2]) "simple"
      = Ok (mul Sym3.W a b).
Proof.
  apply (from_word_concat 1 Sym3.W [(LInt 1, Sym3.P213); (LInt 2, Sym3.P132)]).
  - exact compose_assoc.
  - exact compose_one_r.
  - reflexivity.
  - reflexivity.
  - simpl. intros i H.
    repeat (destruct H as [H|H]; [subst i; auto|]). contradiction.
Defined.

(** ** Labels outside the index set *)


(** ** Distinguished reflections *)

(** On the right, and at a label of the hyperplane index set, the
    distinguished reflection is the one multiplied. *)
Lemma apply_distinguished_reflection_right {elt : Type} (W : Parent elt)
  (H : list label) (t : label -> result elt) (x : elt) (i : label) :
  hyperplane_index_set W = Some H ->
  distinguished_reflection W = Some t ->
  In i H ->
  apply_distinguished_reflection W x i "right" = (g <- t i ;; Ok (mul W x g)).
Proof.
  intros HH Ht Hi. unfold apply_distinguished_reflection.
  rewrite HH, Ht. simpl. apply label_in_In in Hi. now rewrite Hi.
Qed.

(** On any other side the general reflection with that label is looked up
    instead. *)
Lemma apply_distinguished_reflection_other_side {elt : Type} (W : Parent elt)
  (H : list label) (x : elt) (i : label) (side : string) :
  hyperplane_index_set W = Some H ->
  In i H ->
  side <> "right" ->
  apply_distinguished_reflection W x i side =
  (t <- optional "reflection" (reflection W) ;; g <- t i ;; Ok (mul W g x)).
Proof.
  intros HH Hi Hside. unfold apply_distinguished_reflection.
  rewrite HH. simpl. apply label_in_In in Hi. rewrite Hi. simpl.
  destruct (String.eqb_spec side "right"); [contradiction | reflexivity].
Qed.

(** C4.  In the group of the doctest, with hyperplanes labelled ['A'], ['B'],
    ['C'], the label ['A'] is in the hyperplane index set and its
    distinguished reflection is [[2,1,3]]; multiplying it to the unit on the
    left does not return [[2,1,3]]: the reflection with label ['A'] is looked
    up, and there is none. *)
Lemma apply_distinguished_reflection_left_diverges :
  hyperplane_index_set Sym3.W_ABC = Some [LStr "A"; LStr "B"; LStr "C"] /\
  (t <- optional "distinguished_reflection" (distinguished_reflection Sym3.W_ABC) ;;
   g <- t (LStr "A") ;; Ok (mul Sym3.W_ABC g Sym3.P123)) = Ok Sym3.P213 /\
  apply_distinguished_reflection Sym3.W_ABC Sym3.P123 (LStr "A") "right"
    = Ok Sym3.P213 /\
  apply_distinguished_reflection Sym3.W_ABC Sym3.P123 (LStr "A") "left"
    = Raise (KeyError (LStr "A")).
Proof. repeat split. Qed.

(** ** Reflection length *)

(** C7.  Where [reflection_length] is defined, [is_reflection(t)] is
    [reflection_length(t) == 1]: it returns [True] exactly when the
    reflection length of [t] is 1. *)
Theorem is_reflection_iff_length_one {elt : Type} (W : Parent elt)
  (len : elt -> Z) (t : elt) :
  reflection_length W = Some len ->
  is_reflection W t = Ok (Z.eqb (len t) 1) /\
  (is_reflection W t = Ok true <-> len t = 1%Z).
Proof.
  intro H. unfold is_reflection. rewrite H. simpl. split; [reflexivity|].
  split.
  - intro E. injection E as E. now apply Z.eqb_eq.
  - intro E. now rewrite E.
Qed.

Lemma is_reflection_iff_length_one_witness :
  is_reflection Sym3.W Sym3.P321 = Ok (Z.eqb (Sym3.length_of Sym3.P321) 1) /\
  (is_reflection Sym3.W Sym3.P321 = Ok true <-> Sym3.length_of Sym3.P321 = 1%Z).
Proof.
  apply (is_reflection_iff_length_one Sym3.W Sym3.length_of Sym3.P321).
  reflexivity.
Defined.

(** ** an_element *)

(** C1.  On [ColoredPermutations(1,3, reflection_index_set=['A','B','C'])]
    the simple index set is [(1, 2)] and the product of the reflections over
    the reflection index set is [[1,3,2]]; [an_element()] does not return
    it: it asks [reflection] for the simple labels, and [reflection(1)]
    fails.  With the reflections labelled [[0, 1, 2]] it returns
    [reflection(1) * reflection(2)], which leaves the reflection 0 out. *)
Lemma an_element_diverges :
  index_set Sym3_refl_ABC = [LInt 1; LInt 2] /\
  reflection_index_set Sym3_refl_ABC = Some [LStr "A"; LStr "B"; LStr "C"] /\
  an_element_spec Sym3_refl_ABC = Ok Sym3.P132 /\
  an_element Sym3_refl_ABC = Raise (KeyError (LInt 1)) /\
  an_element_spec Sym3.W = Ok Sym3.P132 /\
  an_element Sym3.W = Ok Sym3.P312.
Proof. repeat split. Qed.

(** ** Irreducibility *)

(** C9.  For a group that has irreducible components, its own or, under the
    [Irreducible] axiom, the list [[self]], [is_irreducible()] returns [True]
    exactly when the number of components is 1 and [is_reducible()] returns
    the negation; under the axiom alone the group is irreducible. *)
Theorem is_irreducible_iff_one_component {elt : Type} (W : Parent elt)
  (comps : list (Parent elt)) :
  irreducible_components W = Ok comps ->
  is_irreducible W = Ok (Nat.eqb (List.length comps) 1) /\
  (is_irreducible W = Ok true <-> List.length comps = 1%nat) /\
  is_reducible W = Ok (negb (Nat.eqb (List.length comps) 1)) /\
  (irreducible_components_impl W = None ->
   comps = [W] /\ is_irreducible W = Ok true /\ is_reducible W = Ok false).
Proof.
  intro H.
  assert (Hirr : is_irreducible W = Ok (Nat.eqb (List.length comps) 1)).
  { unfold is_irreducible, nr_irreducible_components. now rewrite H. }
  assert (Hred : is_reducible W = Ok (negb (Nat.eqb (List.length comps) 1))).
  { unfold is_reducible. now rewrite Hirr. }
  split; [exact Hirr|]. split; [|split; [exact Hred|]].
  - rewrite Hirr. split; intro E.
    + injection E as E. now apply Nat.eqb_eq.
    + now rewrite E.
  - intro Hnone. unfold irreducible_components in H. rewrite Hnone in H.
    destruct (in_Irreducible W); [|discriminate].
    injection H as <-. rewrite Hirr, Hred. repeat split.
Qed.

Lemma is_irreducible_iff_one_component_witness :
  is_irreducible Sym3.W = Ok (Nat.eqb (List.length [Sym3.W]) 1) /\
  (is_irreducible Sym3.W = Ok true <-> List.length [Sym3.W] = 1%nat) /\
  is_reducible Sym3.W = Ok (negb (Nat.eqb (List.length [Sym3.W]) 1)) /\
  (irreducible_components_impl Sym3.W = None ->
   [Sym3.W] = [Sym3.W] /\ is_irreducible Sym3.W = Ok true /\
   is_reducible Sym3.W = Ok false).
Proof.
  apply (is_irreducible_iff_one_component Sym3.W [Sym3.W]).
  reflexivity.
Defined.

(** * Further properties of the category's methods *)

(** ** The recursion between the lookup and the right primitive *)

Lemma defaults_recursion {elt : Type} (W : Parent elt) (j : label)
  (rest : list label) d :
  simple_reflection_impl W = None ->
  apply_simple_reflection_right_impl W = None ->
  index_set W = j :: rest ->
  simple_reflections d W = Raise RecursionError /\
  (forall i, simple_reflection d W i = Raise RecursionError) /\
  (forall x i, apply_simple_reflection_right d W x i = Raise RecursionError) /\
  (forall x i, apply_simple_reflection d W x i "right" = Raise RecursionError).
Proof.
  intros Hsr Hr Hidx.
  induction d as [|d (IHfam & IHsr & IHr & IHa)].
  - repeat split; intros; simpl; try rewrite Hsr; try rewrite Hr; reflexivity.
  - repeat split.
    + rewrite simple_reflections_S, Hidx. unfold Family. simpl.
      now rewrite IHsr.
    + intro i.
      change (simple_reflection (S d) W i) with
        (match simple_reflection_impl W with
         | Some f => f i
         | None => apply_simple_reflection d W (one W) i side_default
         end).
      rewrite Hsr. apply IHa.
    + intros x i. rewrite (apply_simple_reflection_right_default d W x i Hr).
      now rewrite IHfam.
    + intros x i. rewrite apply_simple_reflection_S. simpl String.eqb.
      cbv iota. apply IHr.
Qed.

(** X1.  For a concrete class that takes [simple_reflection],
    [simple_reflections], [apply_simple_reflection] and the right primitive
    of its elements from the category, reimplementing none of the four, the
    simple reflections are never obtained: on a non-empty index set the
    lookup, the family and every non-empty word of simple reflections end in
    the recursion limit, however large it is, and whatever the class does
    about the left primitive. *)
Theorem defaults_never_return {elt : Type} (W : Parent elt) d :
  simple_reflection_impl W = None ->
  apply_simple_reflection_right_impl W = None ->
  index_set W <> [] ->
  simple_reflections d W = Raise RecursionError /\
  (forall i, simple_reflection d W i = Raise RecursionError) /\
  (forall i w, from_word d W (i :: w) "simple" = Raise RecursionError).
Proof.
  intros Hsr Hr Hne.
  destruct (index_set W) as [|j rest] eqn:Hidx; [contradiction|].
  destruct (defaults_recursion W j rest d Hsr Hr Hidx) as (Hfam & Hs & _ & Ha).
  repeat split; try assumption.
  intros i w. unfold from_word. simpl String.eqb. cbv iota.
  cbn [apply_simple_reflections]. now rewrite Ha.
Qed.

Lemma defaults_never_return_witness :
  simple_reflections 1000 Sym3_bare = Raise RecursionError /\
  (forall i, simple_reflection 1000 Sym3_bare i = Raise RecursionError) /\
  (forall i w, from_word 1000 Sym3_bare (i :: w) "simple" = Raise RecursionError).
Proof.
  apply (defaults_never_return Sym3_bare 1000).
  - reflexivity.
  - reflexivity.
  - simpl. discriminate.
Defined.

(** X2.  When the concrete class reimplements the right primitive only, the
    category derives the rest from it: [simple_reflection(i)] is what the
    right primitive makes of the unit, and the default left primitive
    multiplies that element on the left of [x]. *)
Theorem left_from_reimplemented_right {elt : Type} (W : Parent elt)
  (r : elt -> label -> result elt) (g : label -> elt) d (x : elt) (i : label) :
  simple_reflection_impl W = None ->
  apply_simple_reflection_left_impl W = None ->
  apply_simple_reflection_right_impl W = Some r ->
  (forall j, In j (index_set W) -> r (one W) j = Ok (g j)) ->
  In i (index_set W) ->
  simple_reflection (2 + d) W i = Ok (g i) /\
  apply_simple_reflection_left (4 + d) W x i = Ok (mul W (g i) x).
Proof.
  intros Hsr Hl Hr Hg Hi.
  assert (Hlookup : forall j, simple_reflection (2 + d) W j = r (one W) j).
  { intro j.
    change (simple_reflection (2 + d) W j) with
      (match simple_reflection_impl W with
       | Some f => f j
       | None => apply_simple_reflection (S d) W (one W) j side_default
       end).
    rewrite Hsr, apply_simple_reflection_S. simpl String.eqb. cbv iota.
    destruct d; simpl; now rewrite Hr. }
  split; [rewrite Hlookup; now apply Hg|].
  change (4 + d) with (S (S (2 + d))).
  rewrite (apply_simple_reflection_left_default _ W x i Hl).
  rewrite simple_reflections_S.
  destruct (Family_total (simple_reflection (2 + d) W) (index_set W)) as [s Hs].
  { intros j Hj. exists (g j). rewrite Hlookup. now apply Hg. }
  rewrite Hs. simpl bind at 1.
  rewrite (Family_getitem _ _ _ _ Hs Hi), Hlookup, (Hg i Hi). reflexivity.
Qed.

Lemma left_from_reimplemented_right_witness :
  simple_reflection 2 Sym3_right (LInt 2) = Ok (Sym3_simple (LInt 2)) /\
  apply_simple_reflection_left 4 Sym3_right Sym3.P213 (LInt 2)
    = Ok (mul Sym3_right (Sym3_simple (LInt 2)) Sym3.P213).
Proof.
  apply (left_from_reimplemented_right Sym3_right
           (fun x i =>
              g <- getitem [(LInt 1, Sym3.P213); (LInt 2, Sym3.P132)] i ;;
              Ok (Sym3.compose x g))
           Sym3_simple 0 Sym3.P213 (LInt 2)).
  - reflexivity.
  - reflexivity.
  - reflexivity.
  - intros j [<-|[<-|[]]]; reflexivity.
  - simpl. right. left. reflexivity.
Defined.

Lemma from_word_unknown_word_type_witness :
  from_word 3 Sym3.W [LInt 1] "distinguised" = Raise (UnboundLocalError "f").
Proof.
  apply (from_word_unknown_word_type 3 Sym3.W [LInt 1] "distinguised").
  simpl. intros [H|[H|[H|[]]]]; discriminate.
Defined.

(** ** Words as loops *)

Section WordLoops.

Context {elt : Type}.
Implicit Types (W : Parent elt) (x y : elt) (i : label) (w : list label).

Lemma apply_simple_reflections_fold d W x w side :
  apply_simple_reflections d W x w side =
  fold_word (fun y i => apply_simple_reflection d W y i side) x w.
Proof.
  revert x. induction w as [|i w IH]; intro x; simpl; [reflexivity|].
  destruct (apply_simple_reflection d W x i side); simpl; [apply IH|reflexivity].
Qed.

Lemma apply_distinguished_reflections_fold W x w side :
  apply_distinguished_reflections W x w side =
  fold_word (fun y i => apply_distinguished_reflection W y i side) x w.
Proof.
  revert x. induction w as [|i w IH]; intro x; simpl; [reflexivity|].
  destruct (apply_distinguished_reflection W x i side); simpl;
    [apply IH|reflexivity].
Qed.

Lemma apply_reflections_fold W x w side :
  apply_reflections W x w side =
  fold_word (fun y i => apply_reflection W y i side) x w.
Proof.
  revert x. induction w as [|i w IH]; intro x; simpl; [reflexivity|].
  destruct (apply_reflection W x i side); simpl; [apply IH|reflexivity].
Qed.

Lemma fold_word_ext (step step' : elt -> label -> result elt) x w :
  (forall y i, In i w -> step y i = step' y i) ->
  fold_word step x w = fold_word step' x w.
Proof.
  revert x. induction w as [|i w IH]; intros x H; simpl; [reflexivity|].
  rewrite (H x i (or_introl eq_refl)).
  destruct (step' x i); simpl; [|reflexivity].
  apply IH. intros y j Hj. apply H. now right.
Qed.

(** A loop whose steps multiply on the right builds the product from the
    left; one whose steps multiply on the left builds it from the right, the
    last label of the word ending up as the leftmost factor. *)
Lemma fold_word_right (m : elt -> elt -> elt)
  (step : elt -> label -> result elt) (g : label -> elt) x w :
  (forall y i, In i w -> step y i = Ok (m y (g i))) ->
  fold_word step x w = Ok (fold_left m (map g w) x).
Proof.
  revert x. induction w as [|i w IH]; intros x H; simpl; [reflexivity|].
  rewrite (H x i (or_introl eq_refl)). simpl.
  apply IH. intros y j Hj. apply H. now right.
Qed.

Lemma fold_word_left (m : elt -> elt -> elt)
  (step : elt -> label -> result elt) (g : label -> elt) x w :
  (forall y i, In i w -> step y i = Ok (m (g i) y)) ->
  fold_word step x w = Ok (fold_right m x (rev (map g w))).
Proof.
  revert x. induction w as [|i w IH]; intros x H; simpl; [reflexivity|].
  rewrite (H x i (or_introl eq_refl)). simpl.
  rewrite fold_right_app. simpl.
  apply IH. intros y j Hj. apply H. now right.
Qed.

Lemma fold_left_from_one (m : elt -> elt -> elt) (e : elt) (l : list elt) x :
  (forall p q r, m (m p q) r = m p (m q r)) ->
  (forall p, m p e = p) ->
  fold_left m l x = m x (fold_left m l e).
Proof.
  intros Hassoc He. revert x.
  induction l as [|a l IH] using rev_ind; intro x; simpl.
  - now rewrite He.
  - rewrite !fold_left_app. simpl. now rewrite IH, Hassoc.
Qed.

End WordLoops.

(** X4.  The three word methods compose along concatenation, exceptions
    included: applying [w1 + w2] is applying [w1] and then, if that returned,
    applying [w2] to its result; a failure inside [w1] is the failure of the
    whole word. *)
Theorem words_compose {elt : Type} d (W : Parent elt) (x : elt)
  (w1 w2 : list label) (side : string) :
  apply_simple_reflections d W x (w1 ++ w2) side =
    (y <- apply_simple_reflections d W x w1 side ;;
     apply_simple_reflections d W y w2 side) /\
  apply_distinguished_reflections W x (w1 ++ w2) side =
    (y <- apply_distinguished_reflections W x w1 side ;;
     apply_distinguished_reflections W y w2 side) /\
  apply_reflections W x (w1 ++ w2) side =
    (y <- apply_reflections W x w1 side ;; apply_reflections W y w2 side).
Proof.
  split; [|split].
  - apply apply_simple_reflections_app.
  - apply apply_distinguished_reflections_app.
  - apply apply_reflections_app.
Qed.

(** X5.  Every [side] other than ['right'] is taken for ['left']: the three
    word methods return for it what they return for ['left'], and no value
    of [side] is rejected. *)
Theorem other_side_is_left {elt : Type} d (W : Parent elt) (x : elt)
  (w : list label) (side : string) :
  side <> "right" ->
  apply_simple_reflections d W x w side
    = apply_simple_reflections d W x w "left" /\
  apply_distinguished_reflections W x w side
    = apply_distinguished_reflections W x w "left" /\
  apply_reflections W x w side = apply_reflections W x w "left".
Proof.
  intro Hside.
  assert (Hs : String.eqb side "right" = false).
  { now apply String.eqb_neq. }
  split; [|split].
  - rewrite !apply_simple_reflections_fold. apply fold_word_ext.
    intros y i _. destruct d as [|d]; [reflexivity|].
    rewrite !apply_simple_reflection_S. now rewrite Hs.
  - rewrite !apply_distinguished_reflections_fold. apply fold_word_ext.
    intros y i _. unfold apply_distinguished_reflection. now rewrite Hs.
  - rewrite !apply_reflections_fold. apply fold_word_ext.
    intros y i _. unfold apply_reflection. now rewrite Hs.
Qed.

Lemma other_side_is_left_witness :
  apply_simple_reflections 3 Sym3.W Sym3.P123 [LInt 1; LInt 2] "both"
    = apply_simple_reflections 3 Sym3.W Sym3.P123 [LInt 1; LInt 2] "left" /\
  apply_distinguished_reflections Sym3.W Sym3.P123 [LInt 1; LInt 2] "both"
    = apply_distinguished_reflections Sym3.W Sym3.P123 [LInt 1; LInt 2] "left" /\
  apply_reflections Sym3.W Sym3.P123 [LInt 1; LInt 2] "both"
    = apply_reflections Sym3.W Sym3.P123 [LInt 1; LInt 2] "left".
Proof.
  apply (other_side_is_left 3 Sym3.W Sym3.P123 [LInt 1; LInt 2] "both").
  discriminate.
Defined.

(** ** Words as products *)

Section WordProducts.

Context {elt : Type}.
Implicit Types (W : Parent elt) (x y : elt) (i : label) (w : list label).

Lemma left_step d W s x i :
  apply_simple_reflection_left_impl W = None ->
  simple_reflections d W = Ok s ->
  apply_simple_reflection (S (S d)) W x i "left" =
  (g <- getitem s i ;; Ok (mul W g x)).
Proof.
  intros Hl Hs. rewrite apply_simple_reflection_S. simpl String.eqb. cbv iota.
  now rewrite (apply_simple_reflection_left_default d W x i Hl), Hs.
Qed.

Lemma reflection_step_inside W R t i x side :
  reflection_index_set W = Some R ->
  reflection W = Some t ->
  In i R ->
  apply_reflection W x i side =
  (g <- t i ;;
   if String.eqb side "right" then Ok (mul W x g) else Ok (mul W g x)).
Proof.
  intros HR Ht Hi. unfold apply_reflection. rewrite HR, Ht. simpl.
  apply label_in_In in Hi. rewrite Hi. simpl.
  destruct (String.eqb side "right"); reflexivity.
Qed.

Lemma reflections_right_product W R t (g : label -> elt) x w :
  reflection_index_set W = Some R ->
  reflection W = Some t ->
  (forall i, In i w -> In i R) ->
  (forall i, In i w -> t i = Ok (g i)) ->
  apply_reflections W x w "right" = Ok (fold_left (mul W) (map g w) x).
Proof.
  intros HR Ht Hin Hg. rewrite apply_reflections_fold.
  apply fold_word_right. intros y i Hi.
  rewrite (reflection_step_inside W R t i y "right" HR Ht (Hin i Hi)).
  now rewrite (Hg i Hi).
Qed.

Lemma reflections_left_product W R t (g : label -> elt) x w :
  reflection_index_set W = Some R ->
  reflection W = Some t ->
  (forall i, In i w -> In i R) ->
  (forall i, In i w -> t i = Ok (g i)) ->
  apply_reflections W x w "left" = Ok (fold_right (mul W) x (rev (map g w))).
Proof.
  intros HR Ht Hin Hg. rewrite apply_reflections_fold.
  apply fold_word_left. intros y i Hi.
  rewrite (reflection_step_inside W R t i y "left" HR Ht (Hin i Hi)).
  now rewrite (Hg i Hi).
Qed.

Lemma distinguished_right_product W H t (g : label -> elt) x w :
  hyperplane_index_set W = Some H ->
  distinguished_reflection W = Some t ->
  (forall i, In i w -> In i H) ->
  (forall i, In i w -> t i = Ok (g i)) ->
  apply_distinguished_reflections W x w "right"
    = Ok (fold_left (mul W) (map g w) x).
Proof.
  intros HH Ht Hin Hg. rewrite apply_distinguished_reflections_fold.
  apply fold_word_right. intros y i Hi.
  rewrite (apply_distinguished_reflection_right W H t y i HH Ht (Hin i Hi)).
  now rewrite (Hg i Hi).
Qed.

End WordProducts.

(** X6.  With the default element primitives and the family [s] of simple
    reflections built, a word [i1 ... ik] whose labels are in the family
    applied on the right of [x] is [x * s[i1] * ... * s[ik]], applied on the
    left it is [s[ik] * ... * s[i1] * x], and [from_word] is the product
    [s[i1] * ... * s[ik]] of the docstring. *)
Theorem simple_word_is_product {elt : Type} d (W : Parent elt)
  (s : family elt) (g : label -> elt) (x : elt) (w : list label) :
  apply_simple_reflection_left_impl W = None ->
  apply_simple_reflection_right_impl W = None ->
  simple_reflections d W = Ok s ->
  (forall i, In i w -> getitem s i = Ok (g i)) ->
  apply_simple_reflections (2 + d) W x w "right"
    = Ok (fold_left (mul W) (map g w) x) /\
  apply_simple_reflections (2 + d) W x w "left"
    = Ok (fold_right (mul W) x (rev (map g w))) /\
  from_word (2 + d) W w "simple" = Ok (prod W (map g w)).
Proof.
  intros Hl Hr Hs Hg.
  assert (Hright : forall y,
    apply_simple_reflections (2 + d) W y w "right"
      = Ok (fold_left (mul W) (map g w) y)).
  { intro y. rewrite apply_simple_reflections_fold. apply fold_word_right.
    intros z i Hi. change (2 + d) with (S (S d)).
    now rewrite (right_step d W s z i Hr Hs), (Hg i Hi). }
  split; [apply Hright|]. split.
  - rewrite apply_simple_reflections_fold. apply fold_word_left.
    intros z i Hi. change (2 + d) with (S (S d)).
    now rewrite (left_step d W s z i Hl Hs), (Hg i Hi).
  - unfold from_word, prod. simpl String.eqb. cbv iota. apply Hright.
Qed.

Lemma simple_word_is_product_witness :
  apply_simple_reflections 3 Sym3.W Sym3.P321 [LInt 1; LInt 2; LInt 1] "right"
    = Ok (fold_left (mul Sym3.W)
            (map Sym3_simple [LInt 1; LInt 2; LInt 1]) Sym3.P321) /\
  apply_simple_reflections 3 Sym3.W Sym3.P321 [LInt 1; LInt 2; LInt 1] "left"
    = Ok (fold_right (mul Sym3.W) Sym3.P321
            (rev (map Sym3_simple [LInt 1; LInt 2; LInt 1]))) /\
  from_word 3 Sym3.W [LInt 1; LInt 2; LInt 1] "simple"
    = Ok (prod Sym3.W (map Sym3_simple [LInt 1; LInt 2; LInt 1])).
Proof.
  apply (simple_word_is_product 1 Sym3.W
           [(LInt 1, Sym3.P213); (LInt 2, Sym3.P132)]).
  - reflexivity.
  - reflexivity.
  - reflexivity.
  - simpl. intros i H.
    repeat (destruct H as [H|H]; [subst i; reflexivity|]). contradiction.
Defined.

(** X7.  A word [i1 ... ik] of labels of the reflection index set, on which
    [reflection] answers, applied on the right of [x] is
    [x * t(i1) * ... * t(ik)]; applied on the left it is
    [t(ik) * ... * t(i1) * x], the last label leftmost; and
    [from_word(word, 'all')] is the product [t(i1) * ... * t(ik)]. *)
Theorem reflection_word_is_product {elt : Type} d (W : Parent elt)
  (R : list label) (t : label -> result elt) (g : label -> elt) (x : elt)
  (w : list label) :
  reflection_index_set W = Some R ->
  reflection W = Some t ->
  (forall i, In i w -> In i R) ->
  (forall i, In i w -> t i = Ok (g i)) ->
  apply_reflections W x w "right" = Ok (fold_left (mul W) (map g w) x) /\
  apply_reflections W x w "left" = Ok (fold_right (mul W) x (rev (map g w))) /\
  from_word d W w "all" = Ok (prod W (map g w)).
Proof.
  intros HR Ht Hin Hg. split; [|split].
  - now apply (reflections_right_product W R t).
  - now apply (reflections_left_product W R t).
  - unfold from_word, prod. simpl String.eqb. cbv iota.
    now apply (reflections_right_product W R t).
Qed.

Lemma reflection_word_is_product_witness :
  apply_reflections Sym3.W Sym3.P132 [LInt 2; LInt 0; LInt 1] "right"
    = Ok (fold_left (mul Sym3.W)
            (map Sym3_reflection [LInt 2; LInt 0; LInt 1]) Sym3.P132) /\
  apply_reflections Sym3.W Sym3.P132 [LInt 2; LInt 0; LInt 1] "left"
    = Ok (fold_right (mul Sym3.W) Sym3.P132
            (rev (map Sym3_reflection [LInt 2; LInt 0; LInt 1]))) /\
  from_word 0 Sym3.W [LInt 2; LInt 0; LInt 1] "all"
    = Ok (prod Sym3.W (map Sym3_reflection [LInt 2; LInt 0; LInt 1])).
Proof.
  apply (reflection_word_is_product 0 Sym3.W [LInt 0; LInt 1; LInt 2]
           (getitem [(LInt 0, Sym3.P213); (LInt 1, Sym3.P132);
                     (LInt 2, Sym3.P321)])).
  - reflexivity.
  - reflexivity.
  - simpl. intros i H.
    repeat (destruct H as [H|H]; [subst i; auto|]). contradiction.
  - simpl. intros i H.
    repeat (destruct H as [H|H]; [subst i; reflexivity|]). contradiction.
Defined.

(** X8.  A word [i1 ... ik] of labels of the hyperplane index set, on which
    [distinguished_reflection] answers, applied on the right of [x] is
    [x * d(i1) * ... * d(ik)], and [from_word(word, 'distinguished')] is the
    product [d(i1) * ... * d(ik)]. *)
Theorem distinguished_word_is_product {elt : Type} d (W : Parent elt)
  (H : list label) (t : label -> result elt) (g : label -> elt) (x : elt)
  (w : list label) :
  hyperplane_index_set W = Some H ->
  distinguished_reflection W = Some t ->
  (forall i, In i w -> In i H) ->
  (forall i, In i w -> t i = Ok (g i)) ->
  apply_distinguished_reflections W x w "right"
    = Ok (fold_left (mul W) (map g w) x) /\
  from_word d W w "distinguished" = Ok (prod W (map g w)).
Proof.
  intros HH Ht Hin Hg. split.
  - now apply (distinguished_right_product W H t).
  - unfold from_word, prod. simpl String.eqb. cbv iota.
    now apply (distinguished_right_product W H t).
Qed.

Lemma distinguished_word_is_product_witness :
  apply_distinguished_reflections Sym3.W Sym3.P132 [LInt 1; LInt 0] "right"
    = Ok (fold_left (mul Sym3.W) (map Sym3_reflection [LInt 1; LInt 0])
            Sym3.P132) /\
  from_word 0 Sym3.W [LInt 1; LInt 0] "distinguished"
    = Ok (prod Sym3.W (map Sym3_reflection [LInt 1; LInt 0])).
Proof.
  apply (distinguished_word_is_product 0 Sym3.W [LInt 0; LInt 1; LInt 2]
           (getitem [(LInt 0, Sym3.P213); (LInt 1, Sym3.P132);
                     (LInt 2, Sym3.P321)])).
  - reflexivity.
  - reflexivity.
  - simpl. intros i Hi.
    repeat (destruct Hi as [Hi|Hi]; [subst i; auto|]). contradiction.
  - simpl. intros i Hi.
    repeat (destruct Hi as [Hi|Hi]; [subst i; reflexivity|]). contradiction.
Defined.

(** ** Words of reflections and the group laws *)

Lemma compose_one_l (p : Sym3.perm) : Sym3.compose Sym3.P123 p = p.
Proof. destruct p; reflexivity. Defined.

(** X9.  In a group (associative product, right unit), for words of labels
    of the reflection index set on which [reflection] answers,
    [from_word(w1 + w2, 'all') == from_word(w1, 'all') * from_word(w2, 'all')]. *)
Theorem from_word_all_concat {elt : Type} d (W : Parent elt) (R : list label)
  (t : label -> result elt) (w1 w2 : list label) :
  (forall p q r, mul W (mul W p q) r = mul W p (mul W q r)) ->
  (forall p, mul W p (one W) = p) ->
  reflection_index_set W = Some R ->
  reflection W = Some t ->
  (forall i, In i (w1 ++ w2) -> In i R) ->
  (forall i, In i (w1 ++ w2) -> exists g, t i = Ok g) ->
  exists a b,
    from_word d W w1 "all" = Ok a /\
    from_word d W w2 "all" = Ok b /\
    from_word d W (w1 ++ w2) "all" = Ok (mul W a b).
Proof.
  intros Hassoc Hone HR Ht Hin Htot.
  set (g := fun i => match t i with Ok v => v | Raise _ => one W end).
  assert (Hg : forall i, In i (w1 ++ w2) -> t i = Ok (g i)).
  { intros i Hi. unfold g. destruct (Htot i Hi) as [v Hv]. now rewrite Hv. }
  assert (Hprod : forall w, incl w (w1 ++ w2) ->
            from_word d W w "all" = Ok (fold_left (mul W) (map g w) (one W))).
  { intros w Hw. unfold from_word. simpl String.eqb. cbv iota.
    apply (reflections_right_product W R t); auto. }
  exists (fold_left (mul W) (map g w1) (one W)),
         (fold_left (mul W) (map g w2) (one W)).
  split; [apply Hprod, incl_appl, incl_refl|].
  split; [apply Hprod, incl_appr, incl_refl|].
  rewrite (Hprod _ (incl_refl _)), map_app, fold_left_app. f_equal.
  now apply fold_left_from_one.
Qed.

Lemma from_word_all_concat_witness :
  exists a b,
    from_word 0 Sym3.W [LInt 0; LInt 2] "all" = Ok a /\
    from_word 0 Sym3.W [LInt 1; LInt 2; LInt 0] "all" = Ok b /\
    from_word 0 Sym3.W ([LInt 0; LInt 2] ++ [LInt 1; LInt 2; LInt 0]) "all"
      = Ok (mul Sym3.W a b).
Proof.
  apply (from_word_all_concat 0 Sym3.W [LInt 0; LInt 1; LInt 2]
           (getitem [(LInt 0, Sym3.P213); (LInt 1, Sym3.P132);
                     (LInt 2, Sym3.P321)])).
  - exact compose_assoc.
  - exact compose_one_r.
  - reflexivity.
  - reflexivity.
  - simpl. intros i H.
    repeat (destruct H as [H|H]; [subst i; auto|]). contradiction.
  - simpl. intros i H.
    repeat (destruct H as [H|H]; [subst i; eexists; reflexivity|]).
    contradiction.
Defined.

(** X10.  In a group (associative product, right unit), for words of labels
    of the hyperplane index set on which [distinguished_reflection] answers,
    [from_word(w1 + w2, 'distinguished')] is
    [from_word(w1, 'distinguished') * from_word(w2, 'distinguished')]. *)
Theorem from_word_distinguished_concat {elt : Type} d (W : Parent elt)
  (H : list label) (t : label -> result elt) (w1 w2 : list label) :
  (forall p q r, mul W (mul W p q) r = mul W p (mul W q r)) ->
  (forall p, mul W p (one W) = p) ->
  hyperplane_index_set W = Some H ->
  distinguished_reflection W = Some t ->
  (forall i, In i (w1 ++ w2) -> In i H) ->
  (forall i, In i (w1 ++ w2) -> exists g, t i = Ok g) ->
  exists a b,
    from_word d W w1 "distinguished" = Ok a /\
    from_word d W w2 "distinguished" = Ok b /\
    from_word d W (w1 ++ w2) "distinguished" = Ok (mul W a b).
Proof.
  intros Hassoc Hone HH Ht Hin Htot.
  set (g := fun i => match t i with Ok v => v | Raise _ => one W end).
  assert (Hg : forall i, In i (w1 ++ w2) -> t i = Ok (g i)).
  { intros i Hi. unfold g. destruct (Htot i Hi) as [v Hv]. now rewrite Hv. }
  assert (Hprod : forall w, incl w (w1 ++ w2) ->
            from_word d W w "distinguished"
              = Ok (fold_left (mul W) (map g w) (one W))).
  { intros w Hw. unfold from_word. simpl String.eqb. cbv iota.
    apply (distinguished_right_product W H t); auto. }
  exists (fold_left (mul W) (map g w1) (one W)),
         (fold_left (mul W) (map g w2) (one W)).
  split; [apply Hprod, incl_appl, incl_refl|].
  split; [apply Hprod, incl_appr, incl_refl|].
  rewrite (Hprod _ (incl_refl _)), map_app, fold_left_app. f_equal.
  now apply fold_left_from_one.
Qed.

Lemma from_word_distinguished_concat_witness :
  exists a b,
    from_word 0 Sym3.W_ABC [LStr "C"] "distinguished" = Ok a /\
    from_word 0 Sym3.W_ABC [LStr "A"; LStr "B"] "distinguished" = Ok b /\
    from_word 0 Sym3.W_ABC ([LStr "C"] ++ [LStr "A"; LStr "B"]) "distinguished"
      = Ok (mul Sym3.W_ABC a b).
Proof.
  apply (from_word_distinguished_concat 0 Sym3.W_ABC
           [LStr "A"; LStr "B"; LStr "C"]
           (getitem [(LStr "A", Sym3.P213); (LStr "B", Sym3.P132);
                     (LStr "C", Sym3.P321)])).
  - exact compose_assoc.
  - exact compose_one_r.
  - reflexivity.
  - reflexivity.
  - simpl. intros i Hi.
    repeat (destruct Hi as [Hi|Hi]; [subst i; auto|]). contradiction.
  - simpl. intros i Hi.
    repeat (destruct Hi as [Hi|Hi]; [subst i; eexists; reflexivity|]).
    contradiction.
Defined.

(** X11.  In a group (associative product, two-sided unit), applying a word
    of reflections to the unit on the left is applying the reversed word on
    the right: [one.apply_reflections(w, side='left')] equals
    [one.apply_reflections(reversed(w), side='right')]. *)
Theorem left_is_reversed_right {elt : Type} (W : Parent elt) (R : list label)
  (t : label -> result elt) (w : list label) :
  (forall p q r, mul W (mul W p q) r = mul W p (mul W q r)) ->
  (forall p, mul W p (one W) = p) ->
  (forall p, mul W (one W) p = p) ->
  reflection_index_set W = Some R ->
  reflection W = Some t ->
  (forall i, In i w -> In i R) ->
  (forall i, In i w -> exists g, t i = Ok g) ->
  exists a,
    apply_reflections W (one W) w "left" = Ok a /\
    apply_reflections W (one W) (rev w) "right" = Ok a.
Proof.
  intros Hassoc Hr Hl HR Ht Hin Htot.
  set (g := fun i => match t i with Ok v => v | Raise _ => one W end).
  assert (Hg : forall i, In i w -> t i = Ok (g i)).
  { intros i Hi. unfold g. destruct (Htot i Hi) as [v Hv]. now rewrite Hv. }
  exists (fold_right (mul W) (one W) (rev (map g w))). split.
  - now apply (reflections_left_product W R t).
  - rewrite (reflections_right_product W R t g).
    + rewrite map_rev. f_equal. apply fold_symmetric.
      * intros p q r. symmetry. apply Hassoc.
      * intro p. now rewrite Hl, Hr.
    + exact HR.
    + exact Ht.
    + intros i Hi. apply Hin. now apply in_rev.
    + intros i Hi. apply Hg. now apply in_rev.
Qed.

Lemma left_is_reversed_right_witness :
  exists a,
    apply_reflections Sym3.W (one Sym3.W) [LInt 0; LInt 1; LInt 1; LInt 2] "left"
      = Ok a /\
    apply_reflections Sym3.W (one Sym3.W)
      (rev [LInt 0; LInt 1; LInt 1; LInt 2]) "right" = Ok a.
Proof.
  apply (left_is_reversed_right Sym3.W [LInt 0; LInt 1; LInt 2]
           (getitem [(LInt 0, Sym3.P213); (LInt 1, Sym3.P132);
                     (LInt 2, Sym3.P321)])).
  - exact compose_assoc.
  - exact compose_one_r.
  - exact compose_one_l.
  - reflexivity.
  - reflexivity.
  - simpl. intros i H.
    repeat (destruct H as [H|H]; [subst i; auto|]). contradiction.
  - simpl. intros i H.
    repeat (destruct H as [H|H]; [subst i; eexists; reflexivity|]).
    contradiction.
Defined.

(** ** an_element, some_elements and the number of simple reflections *)

Lemma reflections_right_mapM {elt : Type} (W : Parent elt) (R : list label)
  (x : elt) (l : list label) :
  reflection_index_set W = Some R ->
  (forall i, In i l -> In i R) ->
  apply_reflections W x l "right" =
  (args <- mapM (fun i => t <- optional "reflection" (reflection W) ;; t i) l ;;
   Ok (fold_left (mul W) args x)).
Proof.
  intros HR. revert x. induction l as [|i l IH]; intros x Hin; [reflexivity|].
  cbn [apply_reflections mapM]. unfold apply_reflection at 1. rewrite HR.
  assert (Hi : label_in i R = true).
  { apply label_in_In, Hin. now left. }
  cbn [optional bind]. rewrite Hi. simpl negb. cbv iota.
  simpl String.eqb. cbv iota.
  destruct (reflection W) as [t|]; cbn [optional bind]; [|reflexivity].
  destruct (t i) as [g|e]; cbn [bind]; [|reflexivity].
  rewrite IH; [|intros j Hj; apply Hin; now right].
  destruct (mapM _ l); reflexivity.
Qed.

(** X12.  When every label of the simple index set is also a label of the
    reflection index set, [an_element()] is [from_word(index_set(), 'all')],
    with the same exception when a reflection is missing. *)
Theorem an_element_is_from_word_all {elt : Type} d (W : Parent elt)
  (R : list label) :
  reflection_index_set W = Some R ->
  (forall i, In i (index_set W) -> In i R) ->
  an_element W = from_word d W (index_set W) "all".
Proof.
  intros HR Hin. unfold from_word, an_element, prod.
  simpl String.eqb. cbv iota.
  now rewrite (reflections_right_mapM W R (one W) (index_set W) HR Hin).
Qed.

Lemma an_element_is_from_word_all_witness :
  an_element Sym3.W = from_word 0 Sym3.W (index_set Sym3.W) "all".
Proof.
  apply (an_element_is_from_word_all 0 Sym3.W [LInt 0; LInt 1; LInt 2]).
  - reflexivity.
  - simpl. intros i H.
    repeat (destruct H as [H|H]; [subst i; auto|]). contradiction.
Defined.

(** X13.  When the simple reflections and [an_element()] are available,
    [some_elements()] lists the simple reflections in the order of the index
    set, then the unit, then [an_element()] twice: its third extra entry is
    the same product again.  It has three entries more than there are
    simple labels. *)
Theorem some_elements_shape {elt : Type} d (W : Parent elt) (s : family elt)
  (a : elt) :
  simple_reflections d W = Ok s ->
  an_element W = Ok a ->
  some_elements d W = Ok (values s ++ [one W; a; a])%list /\
  List.length (values s ++ [one W; a; a])%list
    = (List.length (index_set W) + 3)%nat.
Proof.
  intros Hs Ha. split.
  - unfold some_elements. rewrite Hs, Ha. unfold an_element in Ha.
    destruct (mapM _ (index_set W)) as [args|e]; [|discriminate].
    simpl in Ha. injection Ha as Ha. simpl. now rewrite Ha.
  - rewrite length_app. unfold values. rewrite length_map.
    rewrite <- (simple_reflections_keys d W s Hs), length_map. reflexivity.
Qed.

Lemma some_elements_shape_witness :
  some_elements 1 Sym3.W
    = Ok (values [(LInt 1, Sym3.P213); (LInt 2, Sym3.P132)]
          ++ [one Sym3.W; Sym3.P312; Sym3.P312])%list /\
  List.length (values [(LInt 1, Sym3.P213); (LInt 2, Sym3.P132)]
               ++ [one Sym3.W; Sym3.P312; Sym3.P312])%list
    = (List.length (index_set Sym3.W) + 3)%nat.
Proof.
  apply (some_elements_shape 1 Sym3.W); reflexivity.
Defined.

(** X14.  When the family of simple reflections is built over an index set
    of distinct labels, [nr_simple_reflections()] is the number of labels of
    [index_set()]. *)
Theorem nr_simple_reflections_counts_index_set {elt : Type} d
  (W : Parent elt) (s : family elt) :
  NoDup (index_set W) ->
  simple_reflections d W = Ok s ->
  nr_simple_reflections d W = Ok (List.length (index_set W)).
Proof.
  intros _ Hs. unfold nr_simple_reflections, len. rewrite Hs. simpl.
  now rewrite <- (simple_reflections_keys d W s Hs), length_map.
Qed.

Lemma nr_simple_reflections_counts_index_set_witness :
  nr_simple_reflections 1 Sym3.W = Ok (List.length (index_set Sym3.W)).
Proof.
  apply (nr_simple_reflections_counts_index_set 1 Sym3.W
           [(LInt 1, Sym3.P213); (LInt 2, Sym3.P132)]).
  - simpl. repeat constructor; simpl; intuition discriminate.
  - reflexivity.
Defined.

(** ** The families of reflections and of distinguished reflections *)

(** X15.  When [reflection] answers on every label of the reflection index
    set, [reflections()] is built with exactly those labels, in order, and
    for every such label [i] and element [x], [x.apply_reflection(i)] is
    [x * reflections()[i]] on the right and [reflections()[i] * x] on the
    left. *)
Theorem reflections_family_agrees {elt : Type} (W : Parent elt)
  (R : list label) (t : label -> result elt) :
  reflection_index_set W = Some R ->
  reflection W = Some t ->
  (forall j, In j R -> exists g, t j = Ok g) ->
  exists s, reflections W = Ok s /\ map fst s = R /\
    forall i x, In i R ->
      exists g, getitem s i = Ok g /\
        apply_reflection W x i "right" = Ok (mul W x g) /\
        apply_reflection W x i "left" = Ok (mul W g x).
Proof.
  intros HR Ht Htot.
  destruct (Family_total t R Htot) as [s Hs].
  exists s. split; [|split].
  - unfold reflections. now rewrite HR, Ht.
  - now apply (Family_keys t).
  - intros i x Hi. destruct (Htot i Hi) as [g Hg]. exists g.
    split; [now rewrite (Family_getitem t R s i Hs Hi)|].
    rewrite !(reflection_step_inside W R t i x _ HR Ht Hi), Hg.
    split; reflexivity.
Qed.

Lemma reflections_family_agrees_witness :
  exists s, reflections Sym3.W = Ok s /\
    map fst s = [LInt 0; LInt 1; LInt 2] /\
    forall i x, In i [LInt 0; LInt 1; LInt 2] ->
      exists g, getitem s i = Ok g /\
        apply_reflection Sym3.W x i "right" = Ok (mul Sym3.W x g) /\
        apply_reflection Sym3.W x i "left" = Ok (mul Sym3.W g x).
Proof.
  apply (reflections_family_agrees Sym3.W [LInt 0; LInt 1; LInt 2]
           (getitem [(LInt 0, Sym3.P213); (LInt 1, Sym3.P132);
                     (LInt 2, Sym3.P321)])).
  - reflexivity.
  - reflexivity.
  - simpl. intros j H.
    repeat (destruct H as [H|H]; [subst j; eexists; reflexivity|]).
    contradiction.
Defined.

(** X16.  When [distinguished_reflection] answers on every label of the
    hyperplane index set, [distinguished_reflections()] is built with
    exactly those labels, in order, and for every such label [i] and element
    [x], [x.apply_distinguished_reflection(i)] with the default side is
    [x * distinguished_reflections()[i]]. *)
Theorem distinguished_reflections_family_agrees {elt : Type} (W : Parent elt)
  (H : list label) (t : label -> result elt) :
  hyperplane_index_set W = Some H ->
  distinguished_reflection W = Some t ->
  (forall j, In j H -> exists g, t j = Ok g) ->
  exists s, distinguished_reflections W = Ok s /\ map fst s = H /\
    forall i x, In i H ->
      exists g, getitem s i = Ok g /\
        apply_distinguished_reflection W x i side_default = Ok (mul W x g).
Proof.
  intros HH Ht Htot.
  destruct (Family_total t H Htot) as [s Hs].
  exists s. split; [|split].
  - unfold distinguished_reflections. now rewrite HH, Ht.
  - now apply (Family_keys t).
  - intros i x Hi. destruct (Htot i Hi) as [g Hg]. exists g.
    split; [now rewrite (Family_getitem t H s i Hs Hi)|].
    unfold side_default.
    now rewrite (apply_distinguished_reflection_right W H t x i HH Ht Hi), Hg.
Qed.

Lemma distinguished_reflections_family_agrees_witness :
  exists s, distinguished_reflections Sym3.W_ABC = Ok s /\
    map fst s = [LStr "A"; LStr "B"; LStr "C"] /\
    forall i x, In i [LStr "A"; LStr "B"; LStr "C"] ->
      exists g, getitem s i = Ok g /\
        apply_distinguished_reflection Sym3.W_ABC x i side_default
          = Ok (mul Sym3.W_ABC x g).
Proof.
  apply (distinguished_reflections_family_agrees Sym3.W_ABC
           [LStr "A"; LStr "B"; LStr "C"]
           (getitem [(LStr "A", Sym3.P213); (LStr "B", Sym3.P132);
                     (LStr "C", Sym3.P321)])).
  - reflexivity.
  - reflexivity.
  - simpl. intros j Hj.
    repeat (destruct Hj as [Hj|Hj]; [subst j; eexists; reflexivity|]).
    contradiction.
Defined.

(** ** Missing index sets and labels outside them *)

(** X17.  On a group that does not implement the index set of the word
    type, [from_word] with ['distinguished'] or ['all'] fails on every
    non-empty word with [NotImplementedError] naming the index set method,
    before any label is examined. *)
Theorem word_without_index_set {elt : Type} d (W : Parent elt)
  (word_type : string) (i : label) (w : list label) :
  In word_type ["distinguished"; "all"] ->
  selected_index_set W word_type = None ->
  from_word d W (i :: w) word_type =
  Raise (NotImplementedError
           (if String.eqb word_type "all" then "reflection_index_set"
            else "hyperplane_index_set")).
Proof.
  intros [<-|[<-|[]]] HI; unfold selected_index_set in HI; simpl in HI;
    unfold from_word; simpl String.eqb; cbv iota.
  - cbn [apply_distinguished_reflections].
    unfold apply_distinguished_reflection. now rewrite HI.
  - cbn [apply_reflections]. unfold apply_reflection. now rewrite HI.
Qed.

Lemma word_without_index_set_witness :
  from_word 0 Sym3_bare [LInt 7; LInt 1] "all"
    = Raise (NotImplementedError "reflection_index_set").
Proof.
  apply (word_without_index_set 0 Sym3_bare "all" (LInt 7) [LInt 1]).
  - simpl. right. left. reflexivity.
  - reflexivity.
Defined.

(** X18.  From any element and on any side, a word of reflections whose
    labels before [i] are applied stops at a label [i] outside the
    reflection index set with the [ValueError] naming [i], whether or not
    [reflection] is implemented and whatever follows [i]. *)
Theorem reflection_label_outside_any_side {elt : Type} (W : Parent elt)
  (R pre post : list label) (i : label) (side : string) (x y : elt) :
  reflection_index_set W = Some R ->
  ~ In i R ->
  apply_reflections W x pre side = Ok y ->
  apply_reflections W x (pre ++ i :: post) side
    = Raise (not_an_index i "a reflection").
Proof.
  intros HR Hi Hy. apply label_in_false in Hi.
  rewrite apply_reflections_app, Hy. cbn [bind apply_reflections].
  unfold apply_reflection. rewrite HR. simpl. now rewrite Hi.
Qed.

Lemma reflection_label_outside_any_side_witness :
  apply_reflections Sym3.W Sym3.P231 ([LInt 2] ++ LInt 5 :: [LInt 0]) "left"
    = Raise (ValueError "the given index 5 is not an index of a reflection").
Proof.
  apply (reflection_label_outside_any_side Sym3.W [LInt 0; LInt 1; LInt 2]
           [LInt 2] [LInt 0] (LInt 5) "left" Sym3.P231 Sym3.P132).
  - reflexivity.
  - simpl. intros [H|[H|[H|[]]]]; discriminate.
  - reflexivity.
Defined.

(** X19.  From any element and on any side, a word of distinguished
    reflections whose labels before [i] are applied stops at a label [i]
    outside the hyperplane index set with the [ValueError] naming [i],
    whether or not the lookups are implemented and whatever follows [i]. *)
Theorem distinguished_label_outside_any_side {elt : Type} (W : Parent elt)
  (H pre post : list label) (i : label) (side : string) (x y : elt) :
  hyperplane_index_set W = Some H ->
  ~ In i H ->
  apply_distinguished_reflections W x pre side = Ok y ->
  apply_distinguished_reflections W x (pre ++ i :: post) side
    = Raise (not_an_index i "a hyperplane").
Proof.
  intros HH Hi Hy. apply label_in_false in Hi.
  rewrite apply_distinguished_reflections_app, Hy.
  cbn [bind apply_distinguished_reflections].
  unfold apply_distinguished_reflection. rewrite HH. simpl. now rewrite Hi.
Qed.

Lemma distinguished_label_outside_any_side_witness :
  apply_distinguished_reflections Sym3.W_ABC Sym3.P231
    ([LStr "C"; LStr "A"] ++ LInt 0 :: [LStr "B"]) "right"
    = Raise (ValueError "the given index 0 is not an index of a hyperplane").
Proof.
  apply (distinguished_label_outside_any_side Sym3.W_ABC
           [LStr "A"; LStr "B"; LStr "C"] [LStr "C"; LStr "A"] [LStr "B"]
           (LInt 0) "right" Sym3.P231 Sym3.P123).
  - reflexivity.
  - simpl. intros [H|[H|[H|[]]]]; discriminate.
  - reflexivity.
Defined.
